(** * ArtCollector: the result list, the detail view and the click-triggered
      re-query they share

    A shallow embedding of [src/components/Preview.js] (component [Preview]
    with its inner [fetchPage]) and of the detail-view module (components
    [Searchable] and [Feature]).

    - JavaScript values the components branch on are modelled with their
      truthiness written out ([undefined]/[null] as [None], the empty string
      as a falsy [Some]).
    - The React state slots of the container ([isLoading], [searchResults],
      [featuredResult]), the console, the timer queue and a millisecond clock
      form the [World]; handlers are functions in a state-and-exception monad
      over it, and every effect is also appended to a [trace].
    - JSX is a first-order element tree whose [OnClick] attributes hold the
      handler closures themselves.
    - What the two files take from outside, the module [../api] and the
      builtin [String.prototype.toLowerCase], are parameters of the
      components. *)

From Stdlib Require Import List String Ascii NArith PeanoNat Bool Lia FinFun.
Import ListNotations.
Open Scope string_scope.
Open Scope N_scope.

(** ** JavaScript values *)

Module JS.

(** A string-valued property that may be missing: [None] stands for
    [undefined] and [null]. *)
Definition JSString := option string.

Definition nonempty (s : string) : bool :=
  match s with EmptyString => false | String _ _ => true end.

(** ToBoolean on such a value: missing and [""] are falsy. *)
Definition truthy (v : JSString) : bool :=
  match v with Some s => nonempty s | None => false end.

(** [!v] *)
Definition not_ (v : JSString) : bool := negb (truthy v).

(** [a || b] with a string default. *)
Definition or_else (v : JSString) (d : string) : string :=
  match v with
  | Some s => if nonempty s then s else d
  | None => d
  end.

Definition is_upper (c : ascii) : bool :=
  let n := N_of_ascii c in (65 <=? n) && (n <=? 90).

Definition lower_char (c : ascii) : ascii :=
  if is_upper c then ascii_of_N (N_of_ascii c + 32) else c.

(** What [String.prototype.toLowerCase] computes on a string of ASCII
    characters. The components below do not use it: they take the builtin
    as a parameter, and this function stands for it only where a sample
    record with ASCII values is evaluated. *)
Fixpoint toLowerCase (s : string) : string :=
  match s with
  | EmptyString => EmptyString
  | String c s' => String (lower_char c) (toLowerCase s')
  end.

(** [Array.isArray(v)] for a property that is an array when present. *)
Definition Array_isArray {A : Type} (v : option (list A)) : bool :=
  match v with Some _ => true | None => false end.

End JS.
Import JS.

(** ** Data model *)

Record Person := mkPerson {
  name : string;
  displayname : string
}.

(** The fields [Feature] destructures from a record, in its order. *)
Record ArtRecord := mkArtRecord {
  title : JSString;
  dated : JSString;
  images : option (list string);
  primaryimageurl : JSString;
  description : JSString;
  culture : option (list string);
  style : JSString;
  technique : JSString;
  medium : JSString;
  dimensions : JSString;
  people : option (list Person);
  department : JSString;
  division : JSString;
  contact : JSString;
  creditline : JSString
}.

Record Info := mkInfo {
  prev : JSString;
  next : JSString
}.

Record QueryResultSet := mkQueryResultSet {
  info : Info;
  records : list ArtRecord
}.



(** ** The world the handlers run in *)

Definition Error := string.

(** The only closure the code hands to [setTimeout]:
    [() => { setIsLoading(b); }]. *)
Inductive Callback :=
| CbSetIsLoading (b : bool).

Record Timer := mkTimer {
  due : N;
  callback : Callback
}.

Inductive Effect :=
| PreventDefault
| SetIsLoading (b : bool)
| SetSearchResults (r : QueryResultSet)
| SetFeaturedResult (r : ArtRecord)
| ConsoleError (e : Error)
| CallFetchTermAndValue (term value : string)
| CallFetchURL (url : JSString)
| SetTimeout (cb : Callback) (delay : N).

Record World := mkWorld {
  isLoading : bool;
  searchResults : QueryResultSet;
  featuredResult : option ArtRecord;
  console : list Error;
  now : N;
  timers : list Timer;
  trace : list Effect
}.

Definition log (e : Effect) (w : World) : World :=
  mkWorld (isLoading w) (searchResults w) (featuredResult w) (console w)
          (now w) (timers w) (trace w ++ [e]).

Definition with_isLoading (b : bool) (w : World) : World :=
  mkWorld b (searchResults w) (featuredResult w) (console w)
          (now w) (timers w) (trace w).

Definition with_searchResults (r : QueryResultSet) (w : World) : World :=
  mkWorld (isLoading w) r (featuredResult w) (console w)
          (now w) (timers w) (trace w).

Definition with_featuredResult (r : option ArtRecord) (w : World) : World :=
  mkWorld (isLoading w) (searchResults w) r (console w)
          (now w) (timers w) (trace w).

Definition with_console (c : list Error) (w : World) : World :=
  mkWorld (isLoading w) (searchResults w) (featuredResult w) c
          (now w) (timers w) (trace w).

Definition with_now (t : N) (w : World) : World :=
  mkWorld (isLoading w) (searchResults w) (featuredResult w) (console w)
          t (timers w) (trace w).

Definition with_timers (ts : list Timer) (w : World) : World :=
  mkWorld (isLoading w) (searchResults w) (featuredResult w) (console w)
          (now w) ts (trace w).

(** ** Handlers: state passing with JavaScript completions *)

Inductive Completion (A : Type) :=
| Normal (a : A)
| Throw (e : Error).
Arguments Normal {A} a.
Arguments Throw {A} e.

Definition M (A : Type) : Type := World -> Completion A * World.

Definition ret {A} (a : A) : M A := fun w => (Normal a, w).

Definition bind {A B} (m : M A) (k : A -> M B) : M B :=
  fun w =>
    match m w with
    | (Normal a, w') => k a w'
    | (Throw e, w') => (Throw e, w')
    end.

Definition throw {A} (e : Error) : M A := fun w => (Throw e, w).

Declare Scope js_scope.
Delimit Scope js_scope with js.
Notation "x <- m ;; k" := (bind m (fun x => k))
  (at level 61, m at next level, right associativity) : js_scope.
Notation "m ;; k" := (bind m (fun _ => k))
  (at level 61, right associativity) : js_scope.
Open Scope js_scope.

(** [try { body } catch (error) { handler } finally { finalizer }]: the
    finalizer runs on every path, and its own abrupt completion would
    replace the one of the block. *)
Definition try_catch_finally {A} (body : M A) (handler : Error -> M A)
    (finalizer : M unit) : M A :=
  fun w =>
    match body w with
    | (c, w1) =>
        match (match c with
               | Normal a => (Normal a, w1)
               | Throw e => handler e w1
               end) with
        | (c', w2) =>
            match finalizer w2 with
            | (Normal _, w3) => (c', w3)
            | (Throw e, w3) => (Throw e, w3)
            end
        end
    end.

Definition run {A} (m : M A) (w : World) : World := snd (m w).
Definition completion {A} (m : M A) (w : World) : Completion A := fst (m w).

(** *** The container's setters and the console *)

Definition setIsLoading (b : bool) : M unit :=
  fun w => (Normal tt, log (SetIsLoading b) (with_isLoading b w)).

Definition setSearchResults (r : QueryResultSet) : M unit :=
  fun w => (Normal tt, log (SetSearchResults r) (with_searchResults r w)).

Definition setFeaturedResult (r : ArtRecord) : M unit :=
  fun w =>
    (Normal tt, log (SetFeaturedResult r) (with_featuredResult (Some r) w)).

Definition console_error (e : Error) : M unit :=
  fun w => (Normal tt, log (ConsoleError e) (with_console (console w ++ [e]) w)).

Inductive SyntheticEvent := ClickEvent.

Definition preventDefault (event : SyntheticEvent) : M unit :=
  fun w => (Normal tt, log PreventDefault w).

(** *** Timers and the passage of time *)

(** The queue is kept ordered by due time; timers due at the same instant
    keep the order in which they were set. *)
Fixpoint enqueue (t : Timer) (ts : list Timer) : list Timer :=
  match ts with
  | [] => [t]
  | t' :: ts' =>
      if due t' <=? due t then t' :: enqueue t ts' else t :: ts
  end.

Definition setTimeout (cb : Callback) (delay : N) : M unit :=
  fun w =>
    (Normal tt,
     log (SetTimeout cb delay)
         (with_timers (enqueue (mkTimer (now w + delay) cb) (timers w)) w)).

Definition run_callback (cb : Callback) (w : World) : World :=
  match cb with
  | CbSetIsLoading b => run (setIsLoading b) w
  end.

(** Runs, in queue order, the callbacks that are due by [deadline]. *)
Fixpoint fire (deadline : N) (ts : list Timer) (w : World) : World :=
  match ts with
  | [] => with_timers [] w
  | t :: ts' =>
      if due t <=? deadline
      then fire deadline ts' (run_callback (callback t) w)
      else with_timers ts w
  end.

(** [d] milliseconds go by with the event loop otherwise idle. *)
Definition advance (d : N) (w : World) : World :=
  let deadline := now w + d in
  with_now deadline (fire deadline (timers w) w).

(** *** The fetch collaborator ([../api]) *)

Inductive Settled :=
| Fulfilled (results : QueryResultSet)
| Rejected (error : Error).

(** What a call to the collaborator returns: a promise that settles
    [latency] milliseconds later with [outcome]. *)
Record Promise := mkPromise {
  latency : N;
  outcome : Settled
}.

Record Api := mkApi {
  fetchQueryResultsFromTermAndValue : string -> string -> Promise;
  fetchQueryResultsFromURL : JSString -> Promise
}.

(** [await p]: the handler is suspended while the promise is pending (due
    timers run meanwhile) and resumes with its value, or with its rejection
    thrown. No other click handler runs during the wait: activations are
    modelled one after the other, never overlapping. *)
Definition await (p : Promise) : M QueryResultSet :=
  fun w =>
    let w' := advance (latency p) w in
    match outcome p with
    | Fulfilled results => (Normal results, w')
    | Rejected error => (Throw error, w')
    end.

(** ** Element trees *)

Inductive Attr :=
| Id (s : string)
| ClassName (s : string)
| Href (s : string)
| Src (s : string)
| Alt (s : JSString)
| Key (k : nat)
| Disabled (b : bool)
| OnClick (h : SyntheticEvent -> M unit).

#[local] Set Warnings "-register-all".
Inductive Node :=
| Text (s : string)
| Elem (tag : string) (attrs : list Attr) (children : list Node).

(** [{v && (<>...</>)}]: the fragment when [v] is truthy; a falsy [v]
    ([undefined], [null], [""]) renders nothing. *)
Definition jsx_and (v : JSString) (k : string -> list Node) : list Node :=
  match v with
  | Some s => if nonempty s then k s else []
  | None => []
  end.

(** [{c && (<>...</>)}] for a boolean condition. *)
Definition jsx_when (c : bool) (k : list Node) : list Node :=
  if c then k else [].

(** [xs.map((x, index) => f(x, index))] *)
Fixpoint map_indexed {A B} (f : A -> nat -> B) (i : nat) (xs : list A)
    : list B :=
  match xs with
  | [] => []
  | x :: xs' => f x i :: map_indexed f (S i) xs'
  end.

(** ** The components *)

Section Components.

(** The module [../api] both files import from. *)
Variable api : Api.

(** [String.prototype.toLowerCase], a builtin of the host: the components
    are stated for whatever function it is. *)
Variable toLowerCase : string -> string.

Definition call_fetchQueryResultsFromTermAndValue (term value : string)
    : M Promise :=
  fun w =>
    (Normal (fetchQueryResultsFromTermAndValue api term value),
     log (CallFetchTermAndValue term value) w).

Definition call_fetchQueryResultsFromURL (url : JSString) : M Promise :=
  fun w =>
    (Normal (fetchQueryResultsFromURL api url), log (CallFetchURL url) w).

(** *** Searchable *)

Definition handleClick (searchTerm searchValue : string)
    (event : SyntheticEvent) : M unit :=
  preventDefault event ;;
  setIsLoading true ;;
  try_catch_finally
    (p <- call_fetchQueryResultsFromTermAndValue searchTerm searchValue ;;
     results <- await p ;;
     setSearchResults results)
    (fun error => console_error error)
    (setTimeout (CbSetIsLoading false) 1000).

(** What one [<Searchable ... />] renders; the [key] the caller gives it
    is consumed by React and is no part of the output. *)
Definition Searchable (searchTerm searchValue : string) : Node :=
  Elem "span" [ClassName "content"]
    [Elem "a" [Href "#"; OnClick (handleClick searchTerm searchValue)]
       [Text searchValue]].

(** *** Feature: the fact rows, one definition per JSX block *)

Definition fact_text (label : string) (v : JSString) : list Node :=
  jsx_and v (fun s =>
    [Elem "span" [ClassName "title"] [Text label];
     Elem "span" [ClassName "content"] [Text s]]).

Definition fact_primaryimageurl (r : ArtRecord) : list Node :=
  jsx_and (primaryimageurl r) (fun s =>
    [Elem "span" [ClassName "title"] [];
     Elem "span" [ClassName "content"] [Elem "img" [Src s] []]]).

Definition fact_culture (r : ArtRecord) : list Node :=
  match culture r with
  | Some items =>
      jsx_when (Array_isArray (culture r) && Nat.ltb 0 (List.length items))
        [Elem "span" [ClassName "title"] [Text "Culture:"];
         Elem "span" [ClassName "content"]
           (map_indexed (fun item index => Searchable "culture" item)
                        0%nat items)]
  | None => []
  end.

Definition fact_technique (r : ArtRecord) : list Node :=
  jsx_and (technique r) (fun s =>
    [Elem "span" [ClassName "title"] [Text "Technique:"];
     Elem "span" [ClassName "content"]
       [Searchable "technique" (toLowerCase s)]]).

Definition fact_medium (r : ArtRecord) : list Node :=
  jsx_and (medium r) (fun s =>
    [Elem "span" [ClassName "title"] [Text "Medium:"];
     Elem "span" [ClassName "content"] [Searchable "medium" s]]).

Definition fact_people (r : ArtRecord) : list Node :=
  match people r with
  | Some persons =>
      jsx_when (Nat.ltb 0 (List.length persons))
        [Elem "span" [ClassName "title"] [Text "People:"];
         Elem "span" [ClassName "content"]
           (map_indexed (fun person index =>
                           Searchable "people" (name person))
                        0%nat persons)]
  | None => []
  end.

Definition Feature_facts (r : ArtRecord) : list Node :=
  fact_text "Title:" (title r)
  ++ fact_text "Dated:" (dated r)
  ++ fact_primaryimageurl r
  ++ fact_text "Description:" (description r)
  ++ fact_culture r
  ++ fact_text "Style:" (style r)
  ++ fact_technique r
  ++ fact_medium r
  ++ fact_text "Dimensions:" (dimensions r)
  ++ fact_people r
  ++ fact_text "Department:" (department r)
  ++ fact_text "Division:" (division r)
  ++ fact_text "Contact:" (contact r)
  ++ fact_text "Credit Line:" (creditline r).

Definition Feature (featuredResult : option ArtRecord) : Node :=
  match featuredResult with
  | None => Elem "main" [Id "feature"] []
  | Some r =>
      Elem "main" [Id "feature"]
        [Elem "div" [ClassName "object-feature"]
           [Elem "header" []
              (jsx_and (title r) (fun s => [Elem "h3" [] [Text s]])
               ++ jsx_and (dated r) (fun s => [Elem "h4" [] [Text s]]));
            Elem "section" [ClassName "facts"] (Feature_facts r)]]
  end.

(** *** Preview *)

Definition fetchPage (pageUrl : JSString) : M unit :=
  setIsLoading true ;;
  try_catch_finally
    (p <- call_fetchQueryResultsFromURL pageUrl ;;
     results <- await p ;;
     setSearchResults results)
    (fun error => console_error error)
    (setIsLoading false).

Definition Preview (searchResults : QueryResultSet) : Node :=
  let info := info searchResults in
  let records := records searchResults in
  Elem "aside" [Id "preview"]
    [Elem "header" [ClassName "pagination"]
       [Elem "button"
          [Disabled (not_ (prev info));
           ClassName "previous";
           OnClick (fun _ => fetchPage (prev info))]
          [Text "Previous"];
        Elem "button"
          [Disabled (not_ (next info));
           ClassName "next";
           OnClick (fun _ => fetchPage (next info))]
          [Text "Next"]];
     Elem "section" [ClassName "results"]
       (map_indexed
          (fun record index =>
             Elem "div"
               [Key index;
                ClassName "object-preview";
                OnClick (fun event =>
                           preventDefault event ;;
                           setFeaturedResult record)]
               (jsx_and (primaryimageurl record) (fun s =>
                  [Elem "img" [Src s; Alt (description record)] []])
                ++ [Elem "h3" []
                      [Text (or_else (title record) "MISSING INFO")]]))
          0%nat records)].

End Components.

(** ** Observing a rendered tree *)

Definition node_attrs (n : Node) : list Attr :=
  match n with Text _ => [] | Elem _ attrs _ => attrs end.

Definition node_children (n : Node) : list Node :=
  match n with Text _ => [] | Elem _ _ children => children end.

Definition is_tag (t : string) (n : Node) : bool :=
  match n with Text _ => false | Elem tag _ _ => String.eqb tag t end.

Fixpoint attr_className (attrs : list Attr) : option string :=
  match attrs with
  | [] => None
  | ClassName c :: _ => Some c
  | _ :: attrs' => attr_className attrs'
  end.

Fixpoint attr_src (attrs : list Attr) : option string :=
  match attrs with
  | [] => None
  | Src s :: _ => Some s
  | _ :: attrs' => attr_src attrs'
  end.

Fixpoint attr_disabled (attrs : list Attr) : bool :=
  match attrs with
  | [] => false
  | Disabled b :: _ => b
  | _ :: attrs' => attr_disabled attrs'
  end.

Fixpoint attr_onClick (attrs : list Attr)
    : option (SyntheticEvent -> M unit) :=
  match attrs with
  | [] => None
  | OnClick h :: _ => Some h
  | _ :: attrs' => attr_onClick attrs'
  end.

Definition has_class (c : string) (n : Node) : bool :=
  match attr_className (node_attrs n) with
  | Some c' => String.eqb c' c
  | None => false
  end.

Definition disabled (n : Node) : bool := attr_disabled (node_attrs n).

(** The element and everything below it, in document order. *)
Fixpoint descendants (n : Node) : list Node :=
  match n with
  | Text _ => [n]
  | Elem _ _ children => n :: flat_map descendants children
  end.

Fixpoint textContent (n : Node) : string :=
  match n with
  | Text s => s
  | Elem _ _ children =>
      fold_right (fun c acc => textContent c ++ acc) "" children
  end.

Definition querySelectorAll (p : Node -> bool) (n : Node) : list Node :=
  filter p (descendants n).

Definition querySelector (p : Node -> bool) (n : Node) : option Node :=
  find p (descendants n).

(** A click dispatched at an element: a disabled control receives none, an
    element without a listener ignores it. *)
Definition click (n : Node) (event : SyntheticEvent) : M unit :=
  if disabled n then ret tt
  else match attr_onClick (node_attrs n) with
       | Some h => h event
       | None => ret tt
       end.

(** *** The detail view *)

Definition child_with_class (c : string) (n : Node) : option Node :=
  find (has_class c) (node_children n).

(** The children of [main > div.object-feature > section.facts]. *)
Definition facts_section (main : Node) : list Node :=
  match child_with_class "object-feature" main with
  | Some d =>
      match child_with_class "facts" d with
      | Some s => node_children s
      | None => []
      end
  | None => []
  end.

(** The header element of the detail view, when there is one. *)
Definition header_of (main : Node) : option Node :=
  querySelector (is_tag "header") main.

(** Consecutive children of the facts section, paired as (title, content). *)
Fixpoint rows (l : list Node) : list (Node * Node) :=
  match l with
  | a :: b :: l' => (a, b) :: rows l'
  | _ => []
  end.

(** The fact rows of a rendered detail view: label text and content span. *)
Definition fact_rows (main : Node) : list (string * Node) :=
  map (fun p => (textContent (fst p), snd p)) (rows (facts_section main)).

Definition labels (main : Node) : list string := map fst (fact_rows main).

(** The attribute links inside an element. *)
Definition links (n : Node) : list Node := querySelectorAll (is_tag "a") n.

(** The [src] of every [img] below an element. *)
Definition img_srcs (n : Node) : list (option string) :=
  map (fun i => attr_src (node_attrs i)) (querySelectorAll (is_tag "img") n).

(** *** The result list *)

Definition pagination_control (c : string) (aside : Node) : option Node :=
  querySelector (fun n => is_tag "button" n && has_class c n) aside.

(** The children of [aside > section.results]. *)
Definition result_entries (aside : Node) : list Node :=
  match child_with_class "results" aside with
  | Some s => node_children s
  | None => []
  end.

(** *** Traces *)

Fixpoint loading_writes (tr : list Effect) : list bool :=
  match tr with
  | [] => []
  | SetIsLoading b :: tr' => b :: loading_writes tr'
  | _ :: tr' => loading_writes tr'
  end.


Definition is_fetch_call (e : Effect) : bool :=
  match e with
  | CallFetchTermAndValue _ _ | CallFetchURL _ => true
  | _ => false
  end.

Definition fetch_calls (tr : list Effect) : list Effect :=
  filter is_fetch_call tr.

(** The timers of a queue that [fire] runs, and the effect of each. *)
Fixpoint fired (deadline : N) (ts : list Timer) : list Timer :=
  match ts with
  | [] => []
  | t :: ts' => if due t <=? deadline then t :: fired deadline ts' else []
  end.

Definition callback_effect (cb : Callback) : Effect :=
  match cb with CbSetIsLoading b => SetIsLoading b end.



(** The state a settled fetch leaves in the result-set slot, what it makes
    the handler do, and what it sends to the console. *)
Definition final_results (o : Settled) (old : QueryResultSet)
    : QueryResultSet :=
  match o with
  | Fulfilled results => results
  | Rejected _ => old
  end.

Definition settle_effects (o : Settled) : list Effect :=
  match o with
  | Fulfilled results => [SetSearchResults results]
  | Rejected error => [ConsoleError error]
  end.

Definition logged_on (o : Settled) : list Error :=
  match o with
  | Fulfilled _ => []
  | Rejected error => [error]
  end.

(** *** The fixed set of fact rows *)

Inductive Fact :=
| FTitle | FDated | FImage | FDescription | FCulture | FStyle | FTechnique
| FMedium | FDimensions | FPeople | FDepartment | FDivision | FContact
| FCreditLine.

Definition all_facts : list Fact :=
  [FTitle; FDated; FImage; FDescription; FCulture; FStyle; FTechnique;
   FMedium; FDimensions; FPeople; FDepartment; FDivision; FContact;
   FCreditLine].

(** The label text [Feature] gives each row (none for the image). *)
Definition fact_label (f : Fact) : string :=
  match f with
  | FTitle => "Title:"
  | FDated => "Dated:"
  | FImage => ""
  | FDescription => "Description:"
  | FCulture => "Culture:"
  | FStyle => "Style:"
  | FTechnique => "Technique:"
  | FMedium => "Medium:"
  | FDimensions => "Dimensions:"
  | FPeople => "People:"
  | FDepartment => "Department:"
  | FDivision => "Division:"
  | FContact => "Contact:"
  | FCreditLine => "Credit Line:"
  end.

Definition is_some {A} (o : option A) : bool :=
  match o with Some _ => true | None => false end.

Definition some_nonempty {A} (o : option (list A)) : bool :=
  match o with Some (_ :: _) => true | _ => false end.

(** The field of a row is present on the record (and not an empty list). *)
Definition present (f : Fact) (r : ArtRecord) : bool :=
  match f with
  | FTitle => is_some (title r)
  | FDated => is_some (dated r)
  | FImage => is_some (primaryimageurl r)
  | FDescription => is_some (description r)
  | FCulture => some_nonempty (culture r)
  | FStyle => is_some (style r)
  | FTechnique => is_some (technique r)
  | FMedium => is_some (medium r)
  | FDimensions => is_some (dimensions r)
  | FPeople => some_nonempty (people r)
  | FDepartment => is_some (department r)
  | FDivision => is_some (division r)
  | FContact => is_some (contact r)
  | FCreditLine => is_some (creditline r)
  end.

(** The test [Feature] makes before it emits the row. *)
Definition shown (f : Fact) (r : ArtRecord) : bool :=
  match f with
  | FTitle => truthy (title r)
  | FDated => truthy (dated r)
  | FImage => truthy (primaryimageurl r)
  | FDescription => truthy (description r)
  | FCulture => some_nonempty (culture r)
  | FStyle => truthy (style r)
  | FTechnique => truthy (technique r)
  | FMedium => truthy (medium r)
  | FDimensions => truthy (dimensions r)
  | FPeople => some_nonempty (people r)
  | FDepartment => truthy (department r)
  | FDivision => truthy (division r)
  | FContact => truthy (contact r)
  | FCreditLine => truthy (creditline r)
  end.

(** The rows of a run of children of the facts section. *)
Definition frag_rows (frag : list Node) : list (string * Node) :=
  map (fun p => (textContent (fst p), snd p)) (rows frag).

(** The content spans of the rows that carry a given label. *)
Definition row_content (label : string) (main : Node) : list Node :=
  map snd (filter (fun p => String.eqb (fst p) label) (fact_rows main)).

(** A fragment of the facts section: nothing, or one title span with the
    text [label] followed by one content span. *)
Definition is_fact (label : string) (frag : list Node) : Prop :=
  frag = [] \/ exists t c, frag = [t; c] /\ textContent t = label.

(** ** Sample data *)

Module Sample.

Definition vase : ArtRecord :=
  mkArtRecord (Some "Vase") None None (Some "img1") None None None None
              None None None None None None None.

Definition bowl : ArtRecord :=
  mkArtRecord (Some "Bowl") None None None None (Some ["Greek"; "Roman"])
              None None None None None None None None None.

(** A record with every searchable field and a list of images. *)
Definition starry_night : ArtRecord :=
  mkArtRecord (Some "The Starry Night") (Some "1889")
              (Some ["img/a.jpg"; "img/b.jpg"]) None None (Some ["Dutch"])
              None (Some "Impasto") (Some "Oil on Canvas") None
              (Some [mkPerson "Vincent van Gogh"
                              "Vincent van Gogh (Dutch, 1853-1890)"])
              None None None None.

Definition page1 : QueryResultSet :=
  mkQueryResultSet (mkInfo None (Some "page2")) [vase].

Definition page2 : QueryResultSet :=
  mkQueryResultSet (mkInfo (Some "page1") None) [bowl; starry_night].

Definition no_results : QueryResultSet :=
  mkQueryResultSet (mkInfo None None) [].

(** A collaborator that answers term searches with an empty page, pages
    by URL, and fails on the value ["offline"] and on unknown URLs. *)
Definition api : Api :=
  mkApi
    (fun term value =>
       if String.eqb value "offline"
       then mkPromise 30 (Rejected "NetworkError")
       else mkPromise 120 (Fulfilled no_results))
    (fun url =>
       match url with
       | Some "page2" => mkPromise 80 (Fulfilled page2)
       | Some "page1" => mkPromise 80 (Fulfilled page1)
       | _ => mkPromise 30 (Rejected "NetworkError")
       end).

Definition w0 : World :=
  mkWorld false page1 None [] 0 [] [].

End Sample.

(** ** Further observations and sessions *)

(** The anchor of [Searchable searchTerm searchValue]. *)
Definition anchor (api : Api) (term value : string) : Node :=
  Elem "a" [Href "#"; OnClick (handleClick api term value)] [Text value].

(** The search term [Feature] gives the links of each searchable row. *)
Definition row_terms : list (string * string) :=
  [("Culture:", "culture"); ("Technique:", "technique");
   ("Medium:", "medium"); ("People:", "people")].

(** The fields [Feature] renders as plain text, with their rows. *)
Definition plain_fields : list (Fact * (ArtRecord -> JSString)) :=
  [(FTitle, title); (FDated, dated); (FDescription, description);
   (FStyle, style); (FDimensions, dimensions); (FDepartment, department);
   (FDivision, division); (FContact, contact); (FCreditLine, creditline)].

(** A click on [a] completes normally and calls the term-and-value
    collaborator once, with [term] and [value], whatever the world. *)
Definition queries_with (api : Api) (a : Node) (term value : string) : Prop :=
  forall event w,
    completion (click a event) w = Normal tt
    /\ fetch_calls (trace (run (click a event) w))
       = (fetch_calls (trace w) ++ [CallFetchTermAndValue term value])%list.

(** A link in the row [label] queries with the term of that row and with
    the text it shows. *)
Definition link_ok (api : Api) (label : string) (a : Node) : Prop :=
  exists term,
    In (label, term) row_terms
    /\ queries_with api a term (textContent a).

Definition row_ok (api : Api) (row : string * Node) : Prop :=
  forall a, In a (links (snd row)) -> link_ok api (fst row) a.

Fixpoint attr_alt (attrs : list Attr) : option JSString :=
  match attrs with
  | [] => None
  | Alt a :: _ => Some a
  | _ :: attrs' => attr_alt attrs'
  end.

Fixpoint attr_key (attrs : list Attr) : option nat :=
  match attrs with
  | [] => None
  | Key k :: _ => Some k
  | _ :: attrs' => attr_key attrs'
  end.

(** The [src] and [alt] of every [img] below an element. *)
Definition imgs (n : Node) : list (option string * option JSString) :=
  map (fun i => (attr_src (node_attrs i), attr_alt (node_attrs i)))
      (querySelectorAll (is_tag "img") n).

(** The entry [Preview] maps a record and its index to. *)
Definition object_preview (record : ArtRecord) (index : nat) : Node :=
  Elem "div"
    [Key index; ClassName "object-preview";
     OnClick (fun event => preventDefault event ;; setFeaturedResult record)]
    (jsx_and (primaryimageurl record) (fun s =>
       [Elem "img" [Src s; Alt (description record)] []])
     ++ [Elem "h3" [] [Text (or_else (title record) "MISSING INFO")]]).

(** The timers of a queue that [fire] leaves in it. *)
Fixpoint pending (deadline : N) (ts : list Timer) : list Timer :=
  match ts with
  | [] => []
  | t :: ts' => if due t <=? deadline then pending deadline ts' else ts
  end.

Definition fired_effects (deadline : N) (ts : list Timer) : list Effect :=
  map (fun t => callback_effect (callback t)) (fired deadline ts).

Definition is_prevent (e : Effect) : bool :=
  match e with PreventDefault => true | _ => false end.

(** How often a trace suppresses a default action. *)
Definition prevented (tr : list Effect) : nat :=
  List.length (filter is_prevent tr).

(** *** Sessions

    The three things a user can activate, each run to completion (with
    its fetch settled) before the next one starts. *)
Inductive Activation :=
| ClickLink (term value : string)
| ClickPage (pageUrl : JSString)
| ClickEntry (record : ArtRecord).

Definition activate (api : Api) (a : Activation) : M unit :=
  match a with
  | ClickLink term value => handleClick api term value ClickEvent
  | ClickPage pageUrl => fetchPage api pageUrl
  | ClickEntry record =>
      preventDefault ClickEvent ;; setFeaturedResult record
  end.

Fixpoint run_all (api : Api) (acts : list Activation) (w : World) : World :=
  match acts with
  | [] => w
  | a :: acts' => run_all api acts' (run (activate api a) w)
  end.

(** The promise an activation awaits, if it fetches at all. *)
Definition promise_of (api : Api) (a : Activation) : option Promise :=
  match a with
  | ClickLink term value =>
      Some (fetchQueryResultsFromTermAndValue api term value)
  | ClickPage pageUrl => Some (fetchQueryResultsFromURL api pageUrl)
  | ClickEntry _ => None
  end.

(** The result set after a session: that of the last fetch that was
    fulfilled, or the one before the session. *)
Fixpoint results_after (api : Api) (acts : list Activation)
    (old : QueryResultSet) : QueryResultSet :=
  match acts with
  | [] => old
  | a :: acts' =>
      results_after api acts'
        (match promise_of api a with
         | Some p => final_results (outcome p) old
         | None => old
         end)
  end.

(** The errors of the rejected fetches of a session, in order. *)
Definition errors_of (api : Api) (acts : list Activation) : list Error :=
  flat_map (fun a => match promise_of api a with
                     | Some p => logged_on (outcome p)
                     | None => []
                     end) acts.

(** The featured record after a session: the last entry clicked, or the
    one before the session. *)
Fixpoint selected_after (acts : list Activation) (old : option ArtRecord)
    : option ArtRecord :=
  match acts with
  | [] => old
  | ClickEntry record :: acts' => selected_after acts' (Some record)
  | _ :: acts' => selected_after acts' old
  end.

Definition is_reset (t : Timer) : Prop := callback t = CbSetIsLoading false.

(** Every outstanding timer resets the flag and is due within 1000 ms,
    and the flag is [true] only while such a timer is outstanding. *)
Definition tidy (w : World) : Prop :=
  Forall (fun t => is_reset t /\ due t <= now w + 1000) (timers w)
  /\ (isLoading w = false \/ timers w <> []).

(** A collaborator whose every fetch takes longer than the deferred
    reset. *)
Module Slow.
Definition api : Api :=
  mkApi (fun term value => mkPromise 1500 (Fulfilled Sample.no_results))
        (fun url => mkPromise 1200 (Fulfilled Sample.page2)).
End Slow.

(** *** Two activations in a row

    The sample world after one link has been clicked and its fetch has
    settled, its deferred reset still outstanding: with the collaborator of
    [Sample], and with the slow one. *)
Module Scenario.

End Scenario.

(** * Properties *)

(** ** Timers *)

Lemma fire_trace deadline ts : forall w,
  trace (fire deadline ts w)
  = (trace w
     ++ map (fun t => callback_effect (callback t)) (fired deadline ts))%list.
Proof.
  induction ts as [|t ts IH]; intros w; simpl.
  - now rewrite app_nil_r.
  - destruct (due t <=? deadline); simpl.
    + rewrite IH. destruct (callback t); simpl.
      now rewrite <- app_assoc.
    + now rewrite app_nil_r.
Qed.

Lemma fire_searchResults deadline ts : forall w,
  searchResults (fire deadline ts w) = searchResults w.
Proof.
  induction ts as [|t ts IH]; intros w; simpl; [reflexivity|].
  destruct (due t <=? deadline); [|reflexivity].
  rewrite IH. now destruct (callback t).
Qed.

Lemma fire_console deadline ts : forall w,
  console (fire deadline ts w) = console w.
Proof.
  induction ts as [|t ts IH]; intros w; simpl; [reflexivity|].
  destruct (due t <=? deadline); [|reflexivity].
  rewrite IH. now destruct (callback t).
Qed.

Lemma fire_featuredResult deadline ts : forall w,
  featuredResult (fire deadline ts w) = featuredResult w.
Proof.
  induction ts as [|t ts IH]; intros w; simpl; [reflexivity|].
  destruct (due t <=? deadline); [|reflexivity].
  rewrite IH. now destruct (callback t).
Qed.

(** The timer set last, fired at its own due time, is the last to run. *)
Lemma fire_enqueue_isLoading b d ts : forall w,
  isLoading (fire d (enqueue (mkTimer d (CbSetIsLoading b)) ts) w) = b.
Proof.
  induction ts as [|t ts IH]; intros w; simpl.
  - now rewrite N.leb_refl.
  - destruct (due t <=? d) eqn:E; simpl.
    + rewrite E. apply IH.
    + rewrite N.leb_refl. simpl. now rewrite E.
Qed.

(** ** One activation from a quiescent world *)






(** ** Handlers in any world *)

Lemma advance_searchResults d w :
  searchResults (advance d w) = searchResults w.
Proof. unfold advance. cbn. apply fire_searchResults. Qed.

Lemma advance_console d w : console (advance d w) = console w.
Proof. unfold advance. cbn. apply fire_console. Qed.

Ltac run_handler :=
  unfold completion, run, handleClick, fetchPage, bind, try_catch_finally,
    call_fetchQueryResultsFromTermAndValue, call_fetchQueryResultsFromURL,
    await;
  cbn;
  match goal with
  | |- context [outcome ?p] => destruct (outcome p)
  end;
  cbn;
  rewrite ?fire_console, ?fire_searchResults, ?fire_featuredResult;
  cbn; rewrite ?app_nil_r.

Lemma handleClick_completes api term value event w :
  completion (handleClick api term value event) w = Normal tt.
Proof. run_handler; reflexivity. Qed.

Lemma handleClick_console api term value event w :
  console (run (handleClick api term value event) w)
  = (console w
     ++ logged_on
          (outcome (fetchQueryResultsFromTermAndValue api term value)))%list.
Proof. run_handler; reflexivity. Qed.

Lemma handleClick_searchResults api term value event w :
  searchResults (run (handleClick api term value event) w)
  = final_results (outcome (fetchQueryResultsFromTermAndValue api term value))
      (searchResults w).
Proof. run_handler; reflexivity. Qed.

Lemma handleClick_reset api term value event w :
  isLoading (advance 1000 (run (handleClick api term value event) w)) = false.
Proof.
  unfold advance. run_handler; apply fire_enqueue_isLoading.
Qed.

Lemma fetchPage_completes api pageUrl w :
  completion (fetchPage api pageUrl) w = Normal tt.
Proof. run_handler; reflexivity. Qed.

Lemma fetchPage_console api pageUrl w :
  console (run (fetchPage api pageUrl) w)
  = (console w
     ++ logged_on (outcome (fetchQueryResultsFromURL api pageUrl)))%list.
Proof. run_handler; reflexivity. Qed.

Lemma fetchPage_searchResults api pageUrl w :
  searchResults (run (fetchPage api pageUrl) w)
  = final_results (outcome (fetchQueryResultsFromURL api pageUrl))
      (searchResults w).
Proof. run_handler; reflexivity. Qed.

Lemma fetchPage_reset api pageUrl w :
  isLoading (run (fetchPage api pageUrl) w) = false.
Proof. run_handler; reflexivity. Qed.

(** C2. When the collaborator's promise rejects, the handler logs the error
    once, leaves the result set as it was, completes normally, and the
    loading flag ends up [false]: at once for [fetchPage], and for
    [handleClick] when its deferred reset runs 1000 ms later; no callback
    that runs in between touches the console or the result set. This holds
    in every world, whatever timers are outstanding. *)
Theorem fetch_failure_absorbed (api : Api) (w : World) (e : Error) :
  (forall term value event,
     outcome (fetchQueryResultsFromTermAndValue api term value) = Rejected e ->
     let w1 := run (handleClick api term value event) w in
     completion (handleClick api term value event) w = Normal tt
     /\ console w1 = (console w ++ [e])%list
     /\ searchResults w1 = searchResults w
     /\ isLoading (advance 1000 w1) = false
     /\ console (advance 1000 w1) = (console w ++ [e])%list
     /\ searchResults (advance 1000 w1) = searchResults w)
  /\
  (forall pageUrl,
     outcome (fetchQueryResultsFromURL api pageUrl) = Rejected e ->
     let w1 := run (fetchPage api pageUrl) w in
     completion (fetchPage api pageUrl) w = Normal tt
     /\ console w1 = (console w ++ [e])%list
     /\ searchResults w1 = searchResults w
     /\ isLoading w1 = false).
Proof.
  split.
  - intros term value event Hrej w1. subst w1.
    rewrite advance_console, advance_searchResults.
    rewrite handleClick_console, handleClick_searchResults, Hrej.
    repeat split.
    + apply handleClick_completes.
    + apply handleClick_reset.
  - intros pageUrl Hrej w1. subst w1.
    rewrite fetchPage_console, fetchPage_searchResults, Hrej.
    repeat split.
    + apply fetchPage_completes.
    + apply fetchPage_reset.
Qed.

Lemma fetch_failure_absorbed_witness :
  outcome (fetchQueryResultsFromTermAndValue Sample.api "culture" "offline")
  = Rejected "NetworkError"
  /\ outcome (fetchQueryResultsFromURL Sample.api None)
     = Rejected "NetworkError"
  /\ console (run (handleClick Sample.api "culture" "offline" ClickEvent)
                  Sample.w0)
     = ["NetworkError"]
  /\ searchResults (run (fetchPage Sample.api None) Sample.w0)
     = Sample.page1.
Proof.
  split; [reflexivity|]. split; [reflexivity|].
  destruct (fetch_failure_absorbed Sample.api Sample.w0 "NetworkError")
    as [HS HP].
  split.
  - exact (proj1 (proj2 (HS "culture" "offline" ClickEvent eq_refl))).
  - exact (proj1 (proj2 (proj2 (HP None eq_refl)))).
Defined.

(** ** The fact rows of the detail view *)

Lemma string_app_empty (s : string) : s ++ "" = s.
Proof. induction s as [|a s IH]; cbn; [reflexivity | now rewrite IH]. Qed.

Lemma frag_rows_app label frag rest :
  is_fact label frag ->
  frag_rows (frag ++ rest) = (frag_rows frag ++ frag_rows rest)%list.
Proof.
  intros [-> | (t & c & -> & _)]; reflexivity.
Qed.

Lemma is_fact_text label v : is_fact label (fact_text label v).
Proof.
  unfold fact_text, jsx_and. destruct v as [[|a s]|]; [now left | | now left].
  right. eexists _, _. split; [reflexivity|]. apply string_app_empty.
Qed.

Lemma is_fact_primaryimageurl r : is_fact "" (fact_primaryimageurl r).
Proof.
  unfold fact_primaryimageurl, jsx_and.
  destruct (primaryimageurl r) as [[|a s]|]; [now left | | now left].
  right. eexists _, _. split; reflexivity.
Qed.

Lemma is_fact_culture api r : is_fact "Culture:" (fact_culture api r).
Proof.
  unfold fact_culture. destruct (culture r) as [[|x l]|]; [now left | | now left].
  right. eexists _, _. split; reflexivity.
Qed.

Lemma is_fact_technique api lower r :
  is_fact "Technique:" (fact_technique api lower r).
Proof.
  unfold fact_technique, jsx_and.
  destruct (technique r) as [[|a s]|]; [now left | | now left].
  right. eexists _, _. split; reflexivity.
Qed.

Lemma is_fact_medium api r : is_fact "Medium:" (fact_medium api r).
Proof.
  unfold fact_medium, jsx_and.
  destruct (medium r) as [[|a s]|]; [now left | | now left].
  right. eexists _, _. split; reflexivity.
Qed.

Lemma is_fact_people api r : is_fact "People:" (fact_people api r).
Proof.
  unfold fact_people. destruct (people r) as [[|x l]|]; [now left | | now left].
  right. eexists _, _. split; reflexivity.
Qed.

(** The rows of the rendered view are those of the fourteen blocks, in the
    order of the source. *)
Lemma fact_rows_Feature api lower r :
  fact_rows (Feature api lower (Some r))
  = (frag_rows (fact_text "Title:" (title r))
     ++ frag_rows (fact_text "Dated:" (dated r))
     ++ frag_rows (fact_primaryimageurl r)
     ++ frag_rows (fact_text "Description:" (description r))
     ++ frag_rows (fact_culture api r)
     ++ frag_rows (fact_text "Style:" (style r))
     ++ frag_rows (fact_technique api lower r)
     ++ frag_rows (fact_medium api r)
     ++ frag_rows (fact_text "Dimensions:" (dimensions r))
     ++ frag_rows (fact_people api r)
     ++ frag_rows (fact_text "Department:" (department r))
     ++ frag_rows (fact_text "Division:" (division r))
     ++ frag_rows (fact_text "Contact:" (contact r))
     ++ frag_rows (fact_text "Credit Line:" (creditline r)))%list.
Proof.
  change (fact_rows (Feature api lower (Some r)))
    with (frag_rows (Feature_facts api lower r)).
  unfold Feature_facts.
  rewrite !(frag_rows_app _ _ _ (is_fact_text _ _)),
    (frag_rows_app _ _ _ (is_fact_primaryimageurl r)),
    !(frag_rows_app _ _ _ (is_fact_text _ _)),
    (frag_rows_app _ _ _ (is_fact_culture api r)),
    !(frag_rows_app _ _ _ (is_fact_text _ _)),
    (frag_rows_app _ _ _ (is_fact_technique api lower r)),
    (frag_rows_app _ _ _ (is_fact_medium api r)),
    !(frag_rows_app _ _ _ (is_fact_text _ _)),
    (frag_rows_app _ _ _ (is_fact_people api r)),
    !(frag_rows_app _ _ _ (is_fact_text _ _)).
  reflexivity.
Qed.

Lemma labels_fact_text label v :
  map fst (frag_rows (fact_text label v))
  = if truthy v then [label] else [].
Proof.
  destruct v as [[|a s]|]; cbn; [reflexivity | | reflexivity].
  now rewrite string_app_empty.
Qed.

Lemma labels_fact_primaryimageurl r :
  map fst (frag_rows (fact_primaryimageurl r))
  = if truthy (primaryimageurl r) then [""] else [].
Proof.
  unfold fact_primaryimageurl.
  destruct (primaryimageurl r) as [[|a s]|]; reflexivity.
Qed.

Lemma labels_fact_culture api r :
  map fst (frag_rows (fact_culture api r))
  = if some_nonempty (culture r) then ["Culture:"] else [].
Proof.
  unfold fact_culture. destruct (culture r) as [[|x l]|]; reflexivity.
Qed.

Lemma labels_fact_technique api lower r :
  map fst (frag_rows (fact_technique api lower r))
  = if truthy (technique r) then ["Technique:"] else [].
Proof.
  unfold fact_technique. destruct (technique r) as [[|a s]|]; reflexivity.
Qed.

Lemma labels_fact_medium api r :
  map fst (frag_rows (fact_medium api r))
  = if truthy (medium r) then ["Medium:"] else [].
Proof.
  unfold fact_medium. destruct (medium r) as [[|a s]|]; reflexivity.
Qed.

Lemma labels_fact_people api r :
  map fst (frag_rows (fact_people api r))
  = if some_nonempty (people r) then ["People:"] else [].
Proof.
  unfold fact_people. destruct (people r) as [[|x l]|]; reflexivity.
Qed.

Lemma filter_cons_app {A} (p : A -> bool) x l :
  filter p (x :: l) = ((if p x then [x] else []) ++ filter p l)%list.
Proof. cbn. now destruct (p x). Qed.

Lemma map_if {A B} (f : A -> B) (c : bool) x :
  map f (if c then [x] else []) = if c then [f x] else [].
Proof. now destruct c. Qed.

(** The labels rendered are those of the rows whose test succeeds, in the
    fixed order. *)
Lemma labels_Feature api lower r :
  labels (Feature api lower (Some r))
  = map fact_label (filter (fun f => shown f r) all_facts).
Proof.
  unfold labels. rewrite fact_rows_Feature. unfold all_facts.
  rewrite !filter_cons_app, !map_app, !map_if, !labels_fact_text,
    labels_fact_primaryimageurl, labels_fact_culture, labels_fact_technique,
    labels_fact_medium, labels_fact_people.
  cbn [shown fact_label filter map app].
  now rewrite app_nil_r.
Qed.

Lemma fact_label_inj f g : fact_label f = fact_label g -> f = g.
Proof. destruct f, g; cbn; intros H; try reflexivity; discriminate H. Qed.

Lemma all_facts_complete f : In f all_facts.
Proof. destruct f; cbn; tauto. Qed.

Lemma shown_present f r : shown f r = true -> present f r = true.
Proof.
  destruct f; cbn; try exact (fun H => H);
    match goal with
    | |- truthy ?v = true -> _ => destruct v; [reflexivity | discriminate]
    end.
Qed.

Lemma row_iff_shown api lower r f :
  In (fact_label f) (labels (Feature api lower (Some r))) <-> shown f r = true.
Proof.
  rewrite labels_Feature, in_map_iff. split.
  - intros (g & Hg & Hin). apply fact_label_inj in Hg. subst g.
    now apply filter_In in Hin.
  - intros H. exists f. split; [reflexivity|].
    apply filter_In. split; [apply all_facts_complete | exact H].
Qed.

(** C8. A fact row carries the label of a field only if that field is
    present on the record (for culture and people: present and not empty);
    a field that is absent gets no row; and with no record the view is the
    bare [main] element, with no header and no rows. The row is emitted
    exactly when the test of its JSX block succeeds. *)
Theorem rows_only_for_present_fields (api : Api) (lower : string -> string) :
  (forall r f,
     In (fact_label f) (labels (Feature api lower (Some r))) ->
     present f r = true)
  /\ (forall r f,
        present f r = false ->
        ~ In (fact_label f) (labels (Feature api lower (Some r))))
  /\ (forall r f,
        In (fact_label f) (labels (Feature api lower (Some r)))
        <-> shown f r = true)
  /\ Feature api lower None = Elem "main" [Id "feature"] []
  /\ header_of (Feature api lower None) = None
  /\ fact_rows (Feature api lower None) = [].
Proof.
  split; [|split; [|split]].
  - intros r f H. apply shown_present. now apply row_iff_shown in H.
  - intros r f Habs Hin. apply row_iff_shown, shown_present in Hin.
    congruence.
  - intros r f. apply row_iff_shown.
  - repeat split.
Qed.

Lemma rows_only_for_present_fields_witness :
  In (fact_label FCulture)
     (labels (Feature Sample.api toLowerCase (Some Sample.bowl)))
  /\ present FCulture Sample.bowl = true
  /\ present FMedium Sample.bowl = false
  /\ ~ In (fact_label FMedium)
         (labels (Feature Sample.api toLowerCase (Some Sample.bowl))).
Proof.
  destruct (rows_only_for_present_fields Sample.api toLowerCase)
    as (H1 & H2 & _).
  assert (Hin : In (fact_label FCulture)
                   (labels (Feature Sample.api toLowerCase (Some Sample.bowl))))
    by (cbn; tauto).
  split; [exact Hin|].
  split; [exact (H1 Sample.bowl FCulture Hin)|].
  split; [reflexivity|].
  exact (H2 Sample.bowl FMedium eq_refl).
Defined.

(** ** The attribute links of a row *)

Lemma row_content_frag label l frag :
  is_fact l frag ->
  map snd (filter (fun p => String.eqb (fst p) label) (frag_rows frag))
  = if String.eqb l label then map snd (frag_rows frag) else [].
Proof.
  intros [-> | (t & c & -> & Ht)]; cbn.
  - now destruct (String.eqb l label).
  - rewrite Ht. now destruct (String.eqb l label).
Qed.

Ltac eval_eqb :=
  repeat match goal with
         | |- context [String.eqb ?a ?b] =>
             let v := eval vm_compute in (String.eqb a b) in
             change (String.eqb a b) with v
         end.

Ltac split_rows api lower r :=
  unfold row_content; rewrite fact_rows_Feature;
  rewrite !filter_app, !map_app;
  rewrite !(row_content_frag _ _ _ (is_fact_text _ _)),
    (row_content_frag _ _ _ (is_fact_primaryimageurl r)),
    (row_content_frag _ _ _ (is_fact_culture api r)),
    (row_content_frag _ _ _ (is_fact_technique api lower r)),
    (row_content_frag _ _ _ (is_fact_medium api r)),
    (row_content_frag _ _ _ (is_fact_people api r));
  eval_eqb; cbn [app]; rewrite ?app_nil_r.

Lemma row_content_medium api lower r :
  row_content "Medium:" (Feature api lower (Some r))
  = map snd (frag_rows (fact_medium api r)).
Proof. split_rows api lower r. reflexivity. Qed.

Lemma row_content_technique api lower r :
  row_content "Technique:" (Feature api lower (Some r))
  = map snd (frag_rows (fact_technique api lower r)).
Proof. split_rows api lower r. reflexivity. Qed.

Lemma row_content_people api lower r :
  row_content "People:" (Feature api lower (Some r))
  = map snd (frag_rows (fact_people api r)).
Proof. split_rows api lower r. reflexivity. Qed.

Lemma fire_fetch_calls deadline ts w :
  fetch_calls (trace (fire deadline ts w)) = fetch_calls (trace w).
Proof.
  rewrite fire_trace. unfold fetch_calls. rewrite filter_app.
  replace (filter is_fetch_call
             (map (fun t => callback_effect (callback t)) (fired deadline ts)))
    with (@nil Effect); [apply app_nil_r|].
  induction (fired deadline ts) as [|t l IH]; [reflexivity|].
  cbn. now destruct (callback t).
Qed.

(** Whatever the world, an attribute link calls the collaborator once, with
    its own term and value. *)
Lemma handleClick_fetch_calls api term value event w :
  fetch_calls (trace (run (handleClick api term value event) w))
  = (fetch_calls (trace w) ++ [CallFetchTermAndValue term value])%list.
Proof.
  unfold run, handleClick, bind, try_catch_finally,
    call_fetchQueryResultsFromTermAndValue, await, advance.
  cbn. destruct (outcome _); cbn;
    unfold fetch_calls; rewrite !filter_app; cbn;
    fold (fetch_calls
            (trace (fire (now w + latency
                            (fetchQueryResultsFromTermAndValue api term value))
                         (timers w)
                         (log (CallFetchTermAndValue term value)
                           (log (SetIsLoading true)
                             (with_isLoading true (log PreventDefault w)))))));
    rewrite fire_fetch_calls; cbn; unfold fetch_calls;
    rewrite !filter_app; cbn; rewrite ?app_nil_r, <- ?app_assoc; reflexivity.
Qed.

(** C3. The medium link of a record displays the medium value as it is and
    queries the collaborator with that same value; the technique link
    displays the technique value as [String.prototype.toLowerCase] returns
    it and queries with it. This holds for whatever function that builtin
    is. Each of the two rows holds exactly one link. *)
Theorem medium_as_is_technique_lower_cased (api : Api)
    (lower : string -> string) (r : ArtRecord) :
  (forall m,
     medium r = Some m -> m <> "" ->
     exists a,
       map links (row_content "Medium:" (Feature api lower (Some r))) = [[a]]
       /\ textContent a = m
       /\ forall event w,
            fetch_calls (trace (run (click a event) w))
            = (fetch_calls (trace w)
               ++ [CallFetchTermAndValue "medium" m])%list)
  /\
  (forall t,
     technique r = Some t -> t <> "" ->
     exists a,
       map links (row_content "Technique:" (Feature api lower (Some r)))
       = [[a]]
       /\ textContent a = lower t
       /\ forall event w,
            fetch_calls (trace (run (click a event) w))
            = (fetch_calls (trace w)
               ++ [CallFetchTermAndValue "technique" (lower t)])%list).
Proof.
  split.
  - intros m Hm Hne. rewrite row_content_medium. unfold fact_medium.
    rewrite Hm. destruct m as [|c m]; [contradiction|]. cbn.
    eexists. split; [reflexivity|]. split.
    + cbn. now rewrite string_app_empty.
    + intros event w. apply handleClick_fetch_calls.
  - intros t Ht Hne. rewrite row_content_technique. unfold fact_technique.
    rewrite Ht. destruct t as [|c t]; [contradiction|].
    cbn [jsx_and nonempty frag_rows rows map fst snd].
    eexists. split; [reflexivity|]. split.
    + cbn [textContent fold_right]. apply string_app_empty.
    + intros event w. apply handleClick_fetch_calls.
Qed.

Lemma medium_as_is_technique_lower_cased_witness :
  medium Sample.starry_night = Some "Oil on Canvas"
  /\ "Oil on Canvas" <> ""
  /\ technique Sample.starry_night = Some "Impasto"
  /\ "Impasto" <> ""
  /\ (exists a,
        map links
          (row_content "Medium:"
             (Feature Sample.api toLowerCase (Some Sample.starry_night)))
        = [[a]]
        /\ textContent a = "Oil on Canvas")
  /\ (exists a,
        map links
          (row_content "Technique:"
             (Feature Sample.api toLowerCase (Some Sample.starry_night)))
        = [[a]]
        /\ textContent a = "impasto").
Proof.
  split; [reflexivity|]. split; [discriminate|].
  split; [reflexivity|]. split; [discriminate|].
  destruct (medium_as_is_technique_lower_cased Sample.api toLowerCase
              Sample.starry_night)
    as [HM HT].
  split.
  - destruct (HM "Oil on Canvas" eq_refl) as (a & H1 & H2 & _);
      [discriminate|].
    exists a. split; [exact H1 | exact H2].
  - destruct (HT "Impasto" eq_refl) as (a & H1 & H2 & _); [discriminate|].
    exists a. split; [exact H1 | exact H2].
Defined.

(** C4. On a record whose medium is "Oil on Canvas" the medium link queries
    the collaborator with "Oil on Canvas", not with its lower-cased form
    "oil on canvas"; the text it displays is "Oil on Canvas". *)
Theorem medium_query_value_not_lower_cased :
  let main := Feature Sample.api toLowerCase (Some Sample.starry_night) in
  let anchors := flat_map links (row_content "Medium:" main) in
  medium Sample.starry_night = Some "Oil on Canvas"
  /\ map textContent anchors = ["Oil on Canvas"]
  /\ map (fun a => fetch_calls (trace (run (click a ClickEvent) Sample.w0)))
         anchors
     = [[CallFetchTermAndValue "medium" "Oil on Canvas"]]
  /\ toLowerCase "Oil on Canvas" = "oil on canvas"
  /\ "Oil on Canvas" <> toLowerCase "Oil on Canvas".
Proof.
  cbv zeta. repeat split; try reflexivity. discriminate.
Qed.

(** C5. On a record with one person whose [name] is "Vincent van Gogh" and
    whose [displayname] is "Vincent van Gogh (Dutch, 1853-1890)", the people
    link displays and queries the [name], not the [displayname]. *)
Theorem people_link_uses_name :
  let main := Feature Sample.api toLowerCase (Some Sample.starry_night) in
  let anchors := flat_map links (row_content "People:" main) in
  people Sample.starry_night
  = Some [mkPerson "Vincent van Gogh" "Vincent van Gogh (Dutch, 1853-1890)"]
  /\ map textContent anchors = ["Vincent van Gogh"]
  /\ map (fun a => fetch_calls (trace (run (click a ClickEvent) Sample.w0)))
         anchors
     = [[CallFetchTermAndValue "people" "Vincent van Gogh"]]
  /\ "Vincent van Gogh" <> "Vincent van Gogh (Dutch, 1853-1890)".
Proof.
  cbv zeta. repeat split; try reflexivity. discriminate.
Qed.

(** C6. On a record with two images and no primary image the detail view
    contains no [img] element at all; and for every record the rendered
    view stays the same when the [images] field is replaced. *)
Theorem images_not_rendered (api : Api) (lower : string -> string) :
  images Sample.starry_night = Some ["img/a.jpg"; "img/b.jpg"]
  /\ img_srcs (Feature api lower (Some Sample.starry_night)) = []
  /\ forall r imgs,
       Feature api lower
         (Some (mkArtRecord (title r) (dated r) imgs (primaryimageurl r)
                  (description r) (culture r) (style r) (technique r)
                  (medium r) (dimensions r) (people r) (department r)
                  (division r) (contact r) (creditline r)))
       = Feature api lower (Some r).
Proof.
  repeat split.
Qed.

(** ** The result list *)



Lemma nth_error_map_indexed {A B} (f : A -> nat -> B) xs : forall i n,
  nth_error (map_indexed f i xs) n
  = option_map (fun x => f x (i + n)%nat) (nth_error xs n).
Proof.
  induction xs as [|x xs IH]; intros i n.
  - now destruct n.
  - destruct n as [|n]; cbn.
    + now rewrite Nat.add_0_r.
    + rewrite IH. now rewrite Nat.add_succ_r.
Qed.

Lemma length_map_indexed {A B} (f : A -> nat -> B) xs : forall i,
  List.length (map_indexed f i xs) = List.length xs.
Proof.
  induction xs as [|x xs IH]; intros i; cbn; [reflexivity | now rewrite IH].
Qed.

(** C9. The entry rendered for the record at position [i] of the result set
    has a click handler that suppresses the default action and stores
    exactly that record as the featured result. It calls no collaborator,
    writes neither the loading flag nor the result set, sets no timer and
    completes normally. *)
Theorem selecting_a_record (api : Api) (qrs : QueryResultSet) (i : nat)
    (r : ArtRecord) :
  nth_error (records qrs) i = Some r ->
  List.length (result_entries (Preview api qrs)) = List.length (records qrs)
  /\ exists entry,
       nth_error (result_entries (Preview api qrs)) i = Some entry
       /\ forall event w,
            let w' := run (click entry event) w in
            completion (click entry event) w = Normal tt
            /\ featuredResult w' = Some r
            /\ isLoading w' = isLoading w
            /\ searchResults w' = searchResults w
            /\ console w' = console w
            /\ timers w' = timers w
            /\ now w' = now w
            /\ trace w'
               = (trace w ++ [PreventDefault; SetFeaturedResult r])%list.
Proof.
  intros Hr. split.
  - apply length_map_indexed.
  - change (result_entries (Preview api qrs))
      with (map_indexed
              (fun record index =>
                 Elem "div"
                   [Key index; ClassName "object-preview";
                    OnClick (fun event =>
                               preventDefault event ;;
                               setFeaturedResult record)]
                   (jsx_and (primaryimageurl record) (fun s =>
                      [Elem "img" [Src s; Alt (description record)] []])
                    ++ [Elem "h3" []
                          [Text (or_else (title record) "MISSING INFO")]]))
              0%nat (records qrs)).
    rewrite nth_error_map_indexed, Hr. cbn [option_map].
    eexists. split; [reflexivity|].
    intros event w. cbn. rewrite <- app_assoc. repeat split.
Qed.

Lemma selecting_a_record_witness :
  nth_error (records Sample.page2) 1 = Some Sample.starry_night
  /\ exists entry,
       nth_error (result_entries (Preview Sample.api Sample.page2)) 1
       = Some entry
       /\ featuredResult (run (click entry ClickEvent) Sample.w0)
          = Some Sample.starry_night.
Proof.
  split; [reflexivity|].
  destruct (selecting_a_record Sample.api Sample.page2 1 Sample.starry_night
              eq_refl) as (_ & entry & H1 & H2).
  exists entry. split; [exact H1|].
  exact (proj1 (proj2 (H2 ClickEvent Sample.w0))).
Defined.

(** ** More on the detail view *)

Lemma textContent_anchor api term value :
  textContent (anchor api term value) = value.
Proof. cbn. apply string_app_empty. Qed.

Lemma click_anchor api term value event :
  click (anchor api term value) event = handleClick api term value event.
Proof. reflexivity. Qed.

Lemma links_Searchable api term value :
  links (Searchable api term value) = [anchor api term value].
Proof. reflexivity. Qed.

Lemma links_Searchables {A} api term (g : A -> string) xs : forall i,
  filter (is_tag "a")
    (flat_map descendants
       (map_indexed (fun x (_ : nat) => Searchable api term (g x)) i xs))
  = map (fun x => anchor api term (g x)) xs.
Proof.
  induction xs as [|x xs IH]; intros i; [reflexivity|].
  cbn [map_indexed flat_map map]. rewrite filter_app, IH. reflexivity.
Qed.

(** X1. A [Searchable] renders exactly one anchor, whose text is its
    [searchValue]; a click on it completes normally in every world and
    calls the term-and-value collaborator exactly once, with its own
    [searchTerm] and [searchValue]. *)
Theorem searchable_link (api : Api) (term value : string) :
  exists a,
    links (Searchable api term value) = [a]
    /\ textContent a = value
    /\ textContent (Searchable api term value) = value
    /\ forall event w,
         completion (click a event) w = Normal tt
         /\ fetch_calls (trace (run (click a event) w))
            = (fetch_calls (trace w)
               ++ [CallFetchTermAndValue term value])%list.
Proof.
  exists (anchor api term value). split; [reflexivity|].
  split; [apply textContent_anchor|]. split.
  - cbn. now rewrite !string_app_empty.
  - intros event w. rewrite click_anchor. split.
    + apply handleClick_completes.
    + apply handleClick_fetch_calls.
Qed.

Lemma anchor_queries api term value :
  queries_with api (anchor api term value) term value.
Proof.
  intros event w. rewrite click_anchor. split.
  - apply handleClick_completes.
  - apply handleClick_fetch_calls.
Qed.

Lemma frag_rows_fact_text label v :
  frag_rows (fact_text label v)
  = match v with
    | Some s =>
        if nonempty s
        then [(label, Elem "span" [ClassName "content"] [Text s])]
        else []
    | None => []
    end.
Proof.
  destruct v as [[|c s]|]; cbn; [reflexivity | | reflexivity].
  now rewrite string_app_empty.
Qed.

Lemma row_content_culture api lower r :
  row_content "Culture:" (Feature api lower (Some r))
  = map snd (frag_rows (fact_culture api r)).
Proof. split_rows api lower r. reflexivity. Qed.

Lemma row_content_image api lower r :
  row_content "" (Feature api lower (Some r))
  = map snd (frag_rows (fact_primaryimageurl r)).
Proof. split_rows api lower r. reflexivity. Qed.

Lemma links_content_Searchables {A} api term (g : A -> string) xs :
  links (Elem "span" [ClassName "content"]
           (map_indexed (fun x (_ : nat) => Searchable api term (g x))
                        0%nat xs))
  = map (fun x => anchor api term (g x)) xs.
Proof.
  unfold links, querySelectorAll. cbn [descendants filter is_tag].
  change (String.eqb "span" "a") with false. cbv iota.
  apply links_Searchables.
Qed.

(** X3. A non-empty culture list gives one Culture row whose links show
    the entries themselves, one link per entry and in their order; a
    non-empty people list gives one People row with one link per person.
    A missing or empty list gives no row. *)
Theorem list_rows_one_link_per_entry (api : Api)
    (lower : string -> string) (r : ArtRecord) :
  (forall items,
     culture r = Some items -> items <> [] ->
     map (fun c => map textContent (links c))
         (row_content "Culture:" (Feature api lower (Some r)))
     = [items])
  /\ (forall persons,
        people r = Some persons -> persons <> [] ->
        map (fun c => List.length (links c))
            (row_content "People:" (Feature api lower (Some r)))
        = [List.length persons])
  /\ (culture r = None \/ culture r = Some [] ->
      row_content "Culture:" (Feature api lower (Some r)) = [])
  /\ (people r = None \/ people r = Some [] ->
      row_content "People:" (Feature api lower (Some r)) = []).
Proof.
  split; [|split; [|split]].
  - intros items Hc Hne. rewrite row_content_culture. unfold fact_culture.
    rewrite Hc. destruct items as [|x items]; [contradiction|].
    cbn [Array_isArray List.length Nat.ltb Nat.leb andb jsx_when frag_rows
         rows map fst snd].
    rewrite (links_content_Searchables api "culture" (fun x => x)).
    rewrite map_map. f_equal.
    erewrite map_ext; [apply map_id|].
    intros a. apply textContent_anchor.
  - intros persons Hp Hne. rewrite row_content_people. unfold fact_people.
    rewrite Hp. destruct persons as [|x persons]; [contradiction|].
    cbn [List.length Nat.ltb Nat.leb jsx_when frag_rows rows map fst snd].
    rewrite (links_content_Searchables api "people" name).
    now rewrite length_map.
  - intros [Hc|Hc]; rewrite row_content_culture; unfold fact_culture;
      rewrite Hc; reflexivity.
  - intros [Hp|Hp]; rewrite row_content_people; unfold fact_people;
      rewrite Hp; reflexivity.
Qed.

Lemma anchor_ok api label term value :
  In (label, term) row_terms -> link_ok api label (anchor api term value).
Proof.
  intros H. exists term. split; [exact H|].
  rewrite textContent_anchor. apply anchor_queries.
Qed.

Lemma rows_ok_text api label v :
  Forall (row_ok api) (frag_rows (fact_text label v)).
Proof.
  rewrite frag_rows_fact_text. destruct v as [[|c s]|]; constructor.
  - intros a []. 
  - constructor.
Qed.

Lemma rows_ok_image api r :
  Forall (row_ok api) (frag_rows (fact_primaryimageurl r)).
Proof.
  unfold fact_primaryimageurl.
  destruct (primaryimageurl r) as [[|c s]|]; constructor.
  - intros a [].
  - constructor.
Qed.

Lemma rows_ok_culture api r :
  Forall (row_ok api) (frag_rows (fact_culture api r)).
Proof.
  unfold fact_culture. destruct (culture r) as [[|x l]|]; constructor.
  - intros a. cbn [snd fst].
    rewrite (links_content_Searchables api "culture" (fun y => y)).
    intros (y & <- & _)%in_map_iff. apply anchor_ok. cbn. tauto.
  - constructor.
Qed.

Lemma rows_ok_people api r :
  Forall (row_ok api) (frag_rows (fact_people api r)).
Proof.
  unfold fact_people. destruct (people r) as [[|x l]|]; constructor.
  - intros a. cbn [snd fst].
    rewrite (links_content_Searchables api "people" name).
    intros (y & <- & _)%in_map_iff. apply anchor_ok. cbn. tauto.
  - constructor.
Qed.

Lemma rows_ok_technique api lower r :
  Forall (row_ok api) (frag_rows (fact_technique api lower r)).
Proof.
  unfold fact_technique. destruct (technique r) as [[|c s]|]; constructor.
  - intros a [<-|[]]. apply anchor_ok. cbn. tauto.
  - constructor.
Qed.

Lemma rows_ok_medium api r :
  Forall (row_ok api) (frag_rows (fact_medium api r)).
Proof.
  unfold fact_medium. destruct (medium r) as [[|c s]|]; constructor.
  - intros a [<-|[]]. apply anchor_ok. cbn. tauto.
  - constructor.
Qed.

Lemma rows_ok_Feature api lower r :
  Forall (row_ok api) (fact_rows (Feature api lower (Some r))).
Proof.
  rewrite fact_rows_Feature.
  repeat (apply Forall_app; split);
    auto using rows_ok_text, rows_ok_image, rows_ok_culture, rows_ok_people,
      rows_ok_technique, rows_ok_medium.
Qed.

(** X2. Every link in a fact row of the detail view belongs to one of the
    four searchable rows, and a click on it queries the collaborator with
    the term of that row and with exactly the text the link shows. *)
Theorem links_query_what_they_show (api : Api)
    (lower : string -> string) (r : ArtRecord)
    (label : string) (content a : Node) :
  In (label, content) (fact_rows (Feature api lower (Some r))) ->
  In a (links content) ->
  exists term,
    In (label, term)
       [("Culture:", "culture"); ("Technique:", "technique");
        ("Medium:", "medium"); ("People:", "people")]
    /\ forall event w,
         completion (click a event) w = Normal tt
         /\ fetch_calls (trace (run (click a event) w))
            = (fetch_calls (trace w)
               ++ [CallFetchTermAndValue term (textContent a)])%list.
Proof.
  intros Hrow Ha.
  pose proof (rows_ok_Feature api lower r) as H.
  rewrite Forall_forall in H. exact (H _ Hrow a Ha).
Qed.

Lemma links_query_what_they_show_witness :
  exists content a,
    In ("Culture:", content)
       (fact_rows (Feature Sample.api toLowerCase (Some Sample.bowl)))
    /\ In a (links content)
    /\ textContent a = "Roman"
    /\ exists term,
         In ("Culture:", term) row_terms
         /\ fetch_calls (trace (run (click a ClickEvent) Sample.w0))
            = (fetch_calls (trace Sample.w0)
               ++ [CallFetchTermAndValue term (textContent a)])%list.
Proof.
  eexists. exists (anchor Sample.api "culture" "Roman").
  assert (Hrow : In ("Culture:",
                     Elem "span" [ClassName "content"]
                       [Searchable Sample.api "culture" "Greek";
                        Searchable Sample.api "culture" "Roman"])
                    (fact_rows
                       (Feature Sample.api toLowerCase (Some Sample.bowl))))
    by (cbn; tauto).
  assert (Ha : In (anchor Sample.api "culture" "Roman")
                  (links (Elem "span" [ClassName "content"]
                            [Searchable Sample.api "culture" "Greek";
                             Searchable Sample.api "culture" "Roman"])))
    by (cbn; tauto).
  split; [exact Hrow|]. split; [exact Ha|]. split; [reflexivity|].
  destruct (links_query_what_they_show Sample.api toLowerCase Sample.bowl
              _ _ _ Hrow Ha)
    as (term & Hterm & Hq).
  exists term. split; [exact Hterm|].
  exact (proj2 (Hq ClickEvent Sample.w0)).
Defined.

Lemma list_rows_one_link_per_entry_witness :
  culture Sample.bowl = Some ["Greek"; "Roman"]
  /\ ["Greek"; "Roman"] <> []
  /\ map (fun c => map textContent (links c))
         (row_content "Culture:"
            (Feature Sample.api toLowerCase (Some Sample.bowl)))
     = [["Greek"; "Roman"]]
  /\ people Sample.bowl = None
  /\ row_content "People:"
       (Feature Sample.api toLowerCase (Some Sample.bowl)) = [].
Proof.
  destruct (list_rows_one_link_per_entry Sample.api toLowerCase Sample.bowl)
    as (HC & _ & _ & HP).
  split; [reflexivity|]. split; [discriminate|].
  split; [apply (HC _ eq_refl); discriminate|].
  split; [reflexivity|].
  apply HP. now left.
Defined.

Ltac plain_row api lower r field :=
  split_rows api lower r; rewrite frag_rows_fact_text;
  destruct (field r) as [[|? ?]|]; cbn; rewrite ?string_app_empty;
  reflexivity.

(** X4. Each of the nine plain-text fields, when it holds a non-empty
    string, gets one row whose content is that string unchanged and holds
    no link; otherwise it gets no row. *)
Theorem plain_rows_verbatim (api : Api)
    (lower : string -> string) (r : ArtRecord) (f : Fact)
    (get : ArtRecord -> JSString) :
  In (f, get) plain_fields ->
  map (fun c => (textContent c, links c))
      (row_content (fact_label f) (Feature api lower (Some r)))
  = match get r with
    | Some s => if nonempty s then [(s, [])] else []
    | None => []
    end.
Proof.
  unfold plain_fields. cbn [In].
  intros [H|[H|[H|[H|[H|[H|[H|[H|[H|[]]]]]]]]]];
    injection H as <- <-; cbn [fact_label].
  - plain_row api lower r title.
  - plain_row api lower r dated.
  - plain_row api lower r description.
  - plain_row api lower r style.
  - plain_row api lower r dimensions.
  - plain_row api lower r department.
  - plain_row api lower r division.
  - plain_row api lower r contact.
  - plain_row api lower r creditline.
Qed.

Lemma plain_rows_verbatim_witness :
  In (FTitle, title) plain_fields
  /\ map (fun c => (textContent c, links c))
         (row_content "Title:"
            (Feature Sample.api toLowerCase (Some Sample.bowl)))
     = [("Bowl", [])].
Proof.
  assert (H : In (FTitle, title) plain_fields) by (cbn; tauto).
  split; [exact H|].
  exact (plain_rows_verbatim Sample.api toLowerCase Sample.bowl FTitle title H).
Defined.

(** X5. The row without a label holds exactly one [img], whose [src] is
    the record's [primaryimageurl], and no link; there is no such row when
    that field is missing or empty. *)
Theorem image_row_shows_primary_image (api : Api)
    (lower : string -> string) (r : ArtRecord) :
  map (fun c => (img_srcs c, links c))
      (row_content "" (Feature api lower (Some r)))
  = match primaryimageurl r with
    | Some url => if nonempty url then [([Some url], [])] else []
    | None => []
    end.
Proof.
  rewrite row_content_image. unfold fact_primaryimageurl.
  destruct (primaryimageurl r) as [[|c s]|]; reflexivity.
Qed.

(** X6. The header of the detail view holds an [h3] with the title when
    the title is truthy and an [h4] with the date when the date is truthy,
    in that order and nothing else. *)
Theorem header_shows_title_and_date (api : Api)
    (lower : string -> string) (r : ArtRecord) :
  exists h,
    header_of (Feature api lower (Some r)) = Some h
    /\ map textContent (querySelectorAll (is_tag "h3") h)
       = (if truthy (title r) then [or_else (title r) ""] else [])
    /\ map textContent (querySelectorAll (is_tag "h4") h)
       = (if truthy (dated r) then [or_else (dated r) ""] else [])
    /\ textContent h = or_else (title r) "" ++ or_else (dated r) "".
Proof.
  eexists. split; [reflexivity|].
  destruct (title r) as [[|c s]|], (dated r) as [[|c' s']|]; cbn;
    rewrite ?string_app_empty; repeat split.
Qed.

(** X7. The labels of the rendered rows are those of the fields whose test
    succeeds, in the one fixed order of the source; no label occurs twice
    and there are at most fourteen rows. *)
Theorem fact_rows_in_fixed_order (api : Api)
    (lower : string -> string) (r : ArtRecord) :
  labels (Feature api lower (Some r))
  = map fact_label (filter (fun f => shown f r) all_facts)
  /\ NoDup (labels (Feature api lower (Some r)))
  /\ (List.length (fact_rows (Feature api lower (Some r))) <= 14)%nat.
Proof.
  assert (Hnd : NoDup all_facts).
  { unfold all_facts.
    repeat (constructor; [cbn; intuition discriminate|]). constructor. }
  split; [apply labels_Feature|]. split.
  - rewrite labels_Feature. apply Injective_map_NoDup.
    + intros f g. apply fact_label_inj.
    + now apply NoDup_filter.
  - transitivity (List.length (labels (Feature api lower (Some r)))).
    + unfold labels. now rewrite length_map.
    + rewrite labels_Feature, length_map.
      apply (filter_length_le (fun f => shown f r) all_facts).
Qed.

(** X8. A plain-text field that is present but holds the empty string gets
    no row: the test of its block is truthiness, not presence. *)
Theorem empty_string_field_has_no_row (api : Api)
    (lower : string -> string) (r : ArtRecord) (f : Fact)
    (get : ArtRecord -> JSString) :
  In (f, get) plain_fields ->
  get r = Some "" ->
  present f r = true
  /\ ~ In (fact_label f) (labels (Feature api lower (Some r))).
Proof.
  unfold plain_fields. cbn [In].
  intros [H|[H|[H|[H|[H|[H|[H|[H|[H|[]]]]]]]]]] Hget;
    injection H as <- <-;
    (split; [cbn; now rewrite Hget|]);
    intros Hin%row_iff_shown; cbn in Hin; rewrite Hget in Hin;
    discriminate Hin.
Qed.

Lemma empty_string_field_has_no_row_witness :
  In (FStyle, style) plain_fields
  /\ style (mkArtRecord (Some "Bowl") None None None None None (Some "")
                        None None None None None None None None)
     = Some ""
  /\ ~ In "Style:"
         (labels
            (Feature Sample.api toLowerCase
               (Some (mkArtRecord (Some "Bowl") None None None None None
                                  (Some "") None None None None None None
                                  None None)))).
Proof.
  assert (H : In (FStyle, style) plain_fields) by (cbn; tauto).
  split; [exact H|]. split; [reflexivity|].
  exact (proj2 (empty_string_field_has_no_row Sample.api toLowerCase
                  (mkArtRecord (Some "Bowl") None None None None None
                               (Some "") None None None None None None None
                               None)
                  FStyle style H eq_refl)).
Defined.

(** ** More on the result list *)

Lemma result_entries_Preview api qrs :
  result_entries (Preview api qrs)
  = map_indexed object_preview 0%nat (records qrs).
Proof. reflexivity. Qed.

(** X9. The entry of the record at position [i] carries the key [i]; its
    one [h3] shows the title, or "MISSING INFO" when the title is missing
    or empty; it holds one [img] with the primary image URL as [src] and
    the description as [alt] when that URL is truthy, and none otherwise. *)
Theorem result_entry_shows_image_and_title (api : Api) (qrs : QueryResultSet)
    (i : nat) (r : ArtRecord) :
  nth_error (records qrs) i = Some r ->
  exists entry,
    nth_error (result_entries (Preview api qrs)) i = Some entry
    /\ attr_key (node_attrs entry) = Some i
    /\ map textContent (querySelectorAll (is_tag "h3") entry)
       = [or_else (title r) "MISSING INFO"]
    /\ imgs entry
       = match primaryimageurl r with
         | Some url =>
             if nonempty url then [(Some url, Some (description r))] else []
         | None => []
         end.
Proof.
  intros Hr. rewrite result_entries_Preview, nth_error_map_indexed, Hr.
  cbn [option_map]. eexists. split; [reflexivity|].
  split; [reflexivity|].
  unfold object_preview, imgs.
  destruct (primaryimageurl r) as [[|c s]|]; cbn;
    rewrite ?string_app_empty; split; reflexivity.
Qed.

Lemma result_entry_shows_image_and_title_witness :
  nth_error (records Sample.page2) 1 = Some Sample.starry_night
  /\ exists entry,
       nth_error (result_entries (Preview Sample.api Sample.page2)) 1
       = Some entry
       /\ map textContent (querySelectorAll (is_tag "h3") entry)
          = ["The Starry Night"]
       /\ imgs entry = [].
Proof.
  split; [reflexivity|].
  destruct (result_entry_shows_image_and_title Sample.api Sample.page2 1
              Sample.starry_night eq_refl) as (entry & H1 & _ & H2 & H3).
  exists entry. split; [exact H1|]. split; [exact H2 | exact H3].
Defined.

Lemma no_button_in_entries records : forall i,
  filter (is_tag "button")
    (flat_map descendants (map_indexed object_preview i records)) = [].
Proof.
  induction records as [|r rs IH]; intros i; [reflexivity|].
  cbn [map_indexed flat_map]. rewrite filter_app, IH, app_nil_r.
  unfold object_preview.
  destruct (primaryimageurl r) as [[|c s]|]; reflexivity.
Qed.

(** X10. The result list always renders exactly two buttons, "Previous"
    and "Next" in this order, whatever the records; each is disabled
    exactly when its cursor is falsy. A cursor that is the empty string
    therefore disables its control, and a click on it does nothing. *)
Theorem pagination_header_always_rendered (api : Api) (qrs : QueryResultSet) :
  map (fun b => (textContent b, disabled b))
      (querySelectorAll (is_tag "button") (Preview api qrs))
  = [("Previous", negb (truthy (prev (info qrs))));
     ("Next", negb (truthy (next (info qrs))))]
  /\ (prev (info qrs) = Some "" ->
      exists b,
        pagination_control "previous" (Preview api qrs) = Some b
        /\ disabled b = true
        /\ forall event w, click b event w = (Normal tt, w)).
Proof.
  split.
  - unfold querySelectorAll, Preview.
    cbn [descendants flat_map app filter is_tag].
    repeat match goal with
           | |- context [String.eqb ?a ?b] =>
               let v := eval vm_compute in (String.eqb a b) in
               change (String.eqb a b) with v
           end.
    cbv iota. rewrite !filter_app.
    cbn [descendants flat_map app filter is_tag].
    rewrite app_nil_r.
    pose proof (no_button_in_entries (records qrs) 0%nat) as H.
    unfold object_preview in H. rewrite H. reflexivity.
  - intros Hp. eexists. split; [reflexivity|].
    unfold click, disabled. cbn. rewrite Hp. split; reflexivity.
Qed.

Lemma pagination_header_always_rendered_witness :
  prev (info (mkQueryResultSet (mkInfo (Some "") None) [])) = Some ""
  /\ exists b,
       pagination_control "previous"
         (Preview Sample.api (mkQueryResultSet (mkInfo (Some "") None) []))
       = Some b
       /\ disabled b = true.
Proof.
  split; [reflexivity|].
  destruct (pagination_header_always_rendered Sample.api
              (mkQueryResultSet (mkInfo (Some "") None) []))
    as (_ & H).
  destruct (H eq_refl) as (b & H1 & H2 & _).
  exists b. split; [exact H1 | exact H2].
Defined.

(** ** More on the handlers *)

Lemma fire_timers deadline ts : forall w,
  timers (fire deadline ts w) = pending deadline ts.
Proof.
  induction ts as [|t ts IH]; intros w; cbn; [reflexivity|].
  destruct (due t <=? deadline); [apply IH | reflexivity].
Qed.

Lemma fire_now deadline ts : forall w, now (fire deadline ts w) = now w.
Proof.
  induction ts as [|t ts IH]; intros w; cbn; [reflexivity|].
  destruct (due t <=? deadline); [|reflexivity].
  rewrite IH. now destruct (callback t).
Qed.

Lemma advance_featuredResult d w :
  featuredResult (advance d w) = featuredResult w.
Proof. unfold advance. cbn. apply fire_featuredResult. Qed.

Ltac run_handler_full :=
  unfold completion, run, handleClick, fetchPage, bind, try_catch_finally,
    call_fetchQueryResultsFromTermAndValue, call_fetchQueryResultsFromURL,
    await;
  cbn;
  match goal with
  | |- context [outcome ?p] => destruct (outcome p)
  end;
  cbn;
  rewrite ?fire_console, ?fire_searchResults, ?fire_featuredResult,
    ?fire_timers, ?fire_now, ?fire_trace;
  cbn; rewrite ?app_nil_r.

Lemma handleClick_trace api term value event w :
  let p := fetchQueryResultsFromTermAndValue api term value in
  trace (run (handleClick api term value event) w)
  = (trace w
     ++ [PreventDefault; SetIsLoading true; CallFetchTermAndValue term value]
     ++ fired_effects (now w + latency p) (timers w)
     ++ settle_effects (outcome p)
     ++ [SetTimeout (CbSetIsLoading false) 1000])%list.
Proof.
  intros p. subst p. unfold fired_effects.
  run_handler_full; rewrite <- !app_assoc; reflexivity.
Qed.

Lemma fetchPage_trace api pageUrl w :
  let p := fetchQueryResultsFromURL api pageUrl in
  trace (run (fetchPage api pageUrl) w)
  = (trace w
     ++ [SetIsLoading true; CallFetchURL pageUrl]
     ++ fired_effects (now w + latency p) (timers w)
     ++ settle_effects (outcome p)
     ++ [SetIsLoading false])%list.
Proof.
  intros p. subst p. unfold fired_effects.
  run_handler_full; rewrite <- !app_assoc; reflexivity.
Qed.

Lemma handleClick_timers api term value event w :
  let p := fetchQueryResultsFromTermAndValue api term value in
  timers (run (handleClick api term value event) w)
  = enqueue (mkTimer (now w + latency p + 1000) (CbSetIsLoading false))
            (pending (now w + latency p) (timers w)).
Proof. intros p. subst p. run_handler_full; reflexivity. Qed.

Lemma handleClick_now api term value event w :
  now (run (handleClick api term value event) w)
  = now w + latency (fetchQueryResultsFromTermAndValue api term value).
Proof. run_handler_full; reflexivity. Qed.

Lemma fetchPage_timers api pageUrl w :
  timers (run (fetchPage api pageUrl) w)
  = pending (now w + latency (fetchQueryResultsFromURL api pageUrl))
            (timers w).
Proof. run_handler_full; reflexivity. Qed.

Lemma fetchPage_now api pageUrl w :
  now (run (fetchPage api pageUrl) w)
  = now w + latency (fetchQueryResultsFromURL api pageUrl).
Proof. run_handler_full; reflexivity. Qed.

Lemma handleClick_featuredResult api term value event w :
  featuredResult (run (handleClick api term value event) w)
  = featuredResult w.
Proof. run_handler_full; reflexivity. Qed.

Lemma fetchPage_featuredResult api pageUrl w :
  featuredResult (run (fetchPage api pageUrl) w) = featuredResult w.
Proof. run_handler_full; reflexivity. Qed.

(** X11. Neither query handler touches the featured record: it is the same
    after [handleClick], after its deferred reset, and after [fetchPage],
    in every world and whatever the fetch returned. *)
Theorem queries_keep_selection (api : Api) (w : World) (d : N) :
  (forall term value event,
     featuredResult (run (handleClick api term value event) w)
     = featuredResult w
     /\ featuredResult (advance d (run (handleClick api term value event) w))
        = featuredResult w)
  /\ (forall pageUrl,
        featuredResult (run (fetchPage api pageUrl) w) = featuredResult w).
Proof.
  split.
  - intros term value event. rewrite advance_featuredResult.
    split; apply handleClick_featuredResult.
  - intros pageUrl. apply fetchPage_featuredResult.
Qed.

Lemma prevented_app tr1 tr2 :
  prevented (tr1 ++ tr2) = (prevented tr1 + prevented tr2)%nat.
Proof. unfold prevented. now rewrite filter_app, length_app. Qed.

Lemma prevented_fired deadline ts : prevented (fired_effects deadline ts) = 0%nat.
Proof.
  unfold fired_effects, prevented.
  induction (fired deadline ts) as [|t l IH]; [reflexivity|].
  cbn. now destruct (callback t).
Qed.

Lemma prevented_settle o : prevented (settle_effects o) = 0%nat.
Proof. now destruct o. Qed.

(** X12. [handleClick] suppresses the default action exactly once per
    activation; [fetchPage] and the deferred callbacks never do. *)
Theorem pagination_never_prevents_default (api : Api) (w : World) :
  (forall term value event,
     prevented (trace (run (handleClick api term value event) w))
     = S (prevented (trace w)))
  /\ (forall pageUrl,
        prevented (trace (run (fetchPage api pageUrl) w))
        = prevented (trace w))
  /\ (forall d, prevented (trace (advance d w)) = prevented (trace w)).
Proof.
  split; [|split].
  - intros term value event. rewrite handleClick_trace.
    rewrite !prevented_app, prevented_fired, prevented_settle. cbn. lia.
  - intros pageUrl. rewrite fetchPage_trace.
    rewrite !prevented_app, prevented_fired, prevented_settle. cbn. lia.
  - intros d. unfold advance. cbn [trace with_now]. rewrite fire_trace.
    fold (fired_effects (now w + d) (timers w)).
    rewrite prevented_app, prevented_fired. lia.
Qed.



Lemma activate_completes api a w : completion (activate api a) w = Normal tt.
Proof.
  destruct a; cbn [activate].
  - apply handleClick_completes.
  - apply fetchPage_completes.
  - reflexivity.
Qed.

Lemma activate_searchResults api a w :
  searchResults (run (activate api a) w)
  = match promise_of api a with
    | Some p => final_results (outcome p) (searchResults w)
    | None => searchResults w
    end.
Proof.
  destruct a; cbn [activate promise_of].
  - apply handleClick_searchResults.
  - apply fetchPage_searchResults.
  - reflexivity.
Qed.

Lemma activate_console api a w :
  console (run (activate api a) w)
  = (console w
     ++ match promise_of api a with
        | Some p => logged_on (outcome p)
        | None => []
        end)%list.
Proof.
  destruct a; cbn [activate promise_of].
  - apply handleClick_console.
  - apply fetchPage_console.
  - cbn. now rewrite app_nil_r.
Qed.

Lemma activate_featuredResult api a w :
  featuredResult (run (activate api a) w)
  = selected_after [a] (featuredResult w).
Proof.
  destruct a; cbn [activate selected_after].
  - apply handleClick_featuredResult.
  - apply fetchPage_featuredResult.
  - reflexivity.
Qed.

(** X14. After any sequence of activations the result set is that of the
    last fulfilled fetch (the initial one if none was fulfilled), the
    console has gained the errors of the rejected fetches in order, and the
    featured record is the last entry clicked (the initial one if none
    was). *)
Theorem session_state (api : Api) (acts : list Activation) : forall w,
  searchResults (run_all api acts w) = results_after api acts (searchResults w)
  /\ console (run_all api acts w) = (console w ++ errors_of api acts)%list
  /\ featuredResult (run_all api acts w)
     = selected_after acts (featuredResult w).
Proof.
  induction acts as [|a acts IH]; intros w.
  - cbn. now rewrite app_nil_r.
  - cbn [run_all results_after errors_of flat_map].
    destruct (IH (run (activate api a) w)) as (H1 & H2 & H3).
    rewrite H1, H2, H3, activate_searchResults, activate_console,
      activate_featuredResult.
    split; [reflexivity|]. split.
    + now rewrite <- app_assoc.
    + destruct a; reflexivity.
Qed.

Lemma pending_Forall (P : Timer -> Prop) deadline ts :
  Forall P ts -> Forall P (pending deadline ts).
Proof.
  induction 1 as [|t ts Ht Hts IH]; cbn; [constructor|].
  destruct (due t <=? deadline); [exact IH | now constructor].
Qed.

Lemma enqueue_Forall (P : Timer -> Prop) t ts :
  P t -> Forall P ts -> Forall P (enqueue t ts).
Proof.
  intros Ht. induction 1 as [|t' ts Ht' Hts IH]; cbn.
  - now repeat constructor.
  - destruct (due t' <=? due t); now repeat constructor.
Qed.

Lemma enqueue_not_nil t ts : enqueue t ts <> [].
Proof. destruct ts as [|t' ts]; cbn; [|destruct (due t' <=? due t)]; discriminate. Qed.

Lemma Forall_due_weaken (n m : N) ts :
  n <= m ->
  Forall (fun t => is_reset t /\ due t <= n + 1000) ts ->
  Forall (fun t => is_reset t /\ due t <= m + 1000) ts.
Proof.
  intros Hnm. apply Forall_impl. intros t [H1 H2]. split; [exact H1 | lia].
Qed.

Lemma tidy_activate api a w : tidy w -> tidy (run (activate api a) w).
Proof.
  intros [HF HJ]. destruct a; cbn [activate]; unfold tidy.
  - rewrite handleClick_timers, handleClick_now. split.
    + apply enqueue_Forall.
      * split; [reflexivity | cbn; lia].
      * apply pending_Forall. eapply Forall_due_weaken; [|exact HF]. lia.
    + right. apply enqueue_not_nil.
  - rewrite fetchPage_timers, fetchPage_now, fetchPage_reset. split.
    + apply pending_Forall. eapply Forall_due_weaken; [|exact HF]. lia.
    + now left.
  - split; [exact HF | exact HJ].
Qed.

Lemma tidy_run_all api acts : forall w, tidy w -> tidy (run_all api acts w).
Proof.
  induction acts as [|a acts IH]; intros w H; [exact H|].
  cbn [run_all]. apply IH. now apply tidy_activate.
Qed.

Lemma fire_all_resets deadline ts : forall w,
  Forall (fun t => is_reset t /\ due t <= deadline) ts ->
  isLoading w = false \/ ts <> [] ->
  isLoading (fire deadline ts w) = false
  /\ timers (fire deadline ts w) = [].
Proof.
  induction ts as [|t ts IH]; intros w HF HJ.
  - destruct HJ as [HJ|HJ]; [now split | contradiction].
  - inversion HF as [|? ? [Hr Hd] HF']; subst. cbn [fire].
    replace (due t <=? deadline) with true
      by (symmetry; apply N.leb_le; exact Hd).
    apply IH; [exact HF'|]. left. unfold is_reset in Hr. now rewrite Hr.
Qed.

(** X15. Starting with the flag [false] and no timer outstanding, after
    any sequence of activations followed by 1000 ms or more without one,
    the flag is [false] and no timer is left. *)
Theorem loading_flag_settles (api : Api) (acts : list Activation)
    (w : World) (d : N) :
  timers w = [] -> isLoading w = false -> 1000 <= d ->
  isLoading (advance d (run_all api acts w)) = false
  /\ timers (advance d (run_all api acts w)) = [].
Proof.
  intros Hq Hl Hd.
  assert (Ht : tidy w) by (split; [rewrite Hq; constructor | now left]).
  apply (tidy_run_all api acts) in Ht. destruct Ht as [HF HJ].
  unfold advance. cbn [isLoading timers with_now].
  apply fire_all_resets; [|exact HJ].
  revert HF. apply Forall_impl. intros t [H1 H2]. split; [exact H1 | lia].
Qed.

Lemma loading_flag_settles_witness :
  timers Sample.w0 = [] /\ isLoading Sample.w0 = false /\ 1000 <= 1000
  /\ isLoading
       (advance 1000
          (run_all Slow.api
             [ClickLink "culture" "Greek"; ClickPage (Some "page2");
              ClickEntry Sample.bowl; ClickLink "medium" "oil"]
             Sample.w0)) = false.
Proof.
  split; [reflexivity|]. split; [reflexivity|]. split; [lia|].
  apply (loading_flag_settles Slow.api); [reflexivity | reflexivity | lia].
Defined.

(** ** The loading flag when a deferred reset is outstanding *)

Lemma loading_writes_app tr1 tr2 :
  loading_writes (tr1 ++ tr2) = (loading_writes tr1 ++ loading_writes tr2)%list.
Proof.
  induction tr1 as [|e tr1 IH]; [reflexivity|].
  destruct e; cbn; rewrite IH; reflexivity.
Qed.






(** ** The pagination controls *)


